(** * Frame differ of the terminal renderer: [compute_diff_buffer]

    Shallow embedding of [src/diff_buffer.pyx] and the properties of its
    update list.

    Conventions of the embedding:
    - a frame buffer is a Python list of rows, a row a Python list whose
      elements are either a [Pixel] object or [None]: [list (list (option Pixel))];
    - Python integers are [Z]; the indices produced by [range] are [nat]
      and are injected with [Z.of_nat] where they meet [term_width],
      [term_height] or a position;
    - colour channels and [color_threshold] are exact rationals [Q]
      (Python's integers are exact; for floating-point channels this is the
      idealised arithmetic);
    - the routine runs in an error monad: list indexing raises [IndexError]
      out of range and attribute access on [None] raises [AttributeError],
      exactly where Python would. *)

From Stdlib Require Import List ZArith QArith Bool Lia Sorted.
From Stdlib Require String.
Import String.StringSyntax.
Delimit Scope string_scope with string.
Import ListNotations.

Set Implicit Arguments.

(** ** Collaborator types of module [data] *)

Module Data.

(** Modelled from the spec: class [Color] of module [data] is not part of
    the sources; the spec gives it as an RGB triple of numeric channels,
    built as [Color(r, g, b)] and read back with [to_tuple_rgb]. *)
Record Color : Type := mkColor { red : Q; green : Q; blue : Q }.

Definition to_tuple_rgb (c : Color) : Q * Q * Q := (red c, green c, blue c).

(** Modelled from the spec: class [Position] of module [data], an integer
    pair (x, y), x the column and y the row. *)
Record Position : Type := mkPosition { pos_x : Z; pos_y : Z }.

(** Modelled from the spec: class [Pixel] of module [data], a glyph, a
    colour and the position it occupies, built as
    [Pixel(char, color, position)]. *)
Record Pixel : Type := mkPixel { char : String.string; color : Color; position : Position }.

End Data.
Import Data.

(** ** Python exceptions and the error monad *)

Inductive exn : Type :=
| IndexError
| AttributeError.

Inductive result (A : Type) : Type :=
| Ok (a : A)
| Raise (e : exn).

Arguments Ok {A} a.
Arguments Raise {A} e.

Definition bind {A B : Type} (m : result A) (k : A -> result B) : result B :=
  match m with
  | Ok a => k a
  | Raise e => Raise e
  end.

Notation "x <- m ;; k" := (bind m (fun x => k))
  (at level 61, m at next level, right associativity).

(** [l[i]] for a non-negative index. *)
Definition getitem {A : Type} (l : list A) (i : nat) : result A :=
  match nth_error l i with
  | Some a => Ok a
  | None => Raise IndexError
  end.

(** [p.char] and [p.color] on a value that may be [None]. *)
Definition get_char (p : option Pixel) : result String.string :=
  match p with
  | Some px => Ok (char px)
  | None => Raise AttributeError
  end.

Definition get_color (p : option Pixel) : result Color :=
  match p with
  | Some px => Ok (color px)
  | None => Raise AttributeError
  end.

Definition is_None {A : Type} (o : option A) : bool :=
  match o with
  | None => true
  | Some _ => false
  end.

(** [range(n)] *)
Definition range (n : nat) : list nat := seq 0 n.

(** [for i in xs: body], threading the loop state and stopping at the
    first exception. *)
Fixpoint for_in {S : Type} (xs : list nat) (body : nat -> S -> result S) (s : S)
  : result S :=
  match xs with
  | [] => Ok s
  | i :: xs' => s' <- body i s ;; for_in xs' body s'
  end.

(** ** The routine *)

Definition Buffer : Type := list (list (option Pixel)).
Definition UpdateEntry : Type := ((Z * Z) * Pixel)%type.

Local Open Scope Q_scope.

(** Lines 25 to 37: the decision [needs_update] for one position. *)
Definition decide_needs_update (self_pixel other_pixel : option Pixel)
    (threshold_squared : Q) : result bool :=
  if negb (eqb (is_None self_pixel) (is_None other_pixel)) then Ok true
  else if negb (is_None self_pixel) && negb (is_None other_pixel) then
    c1 <- get_char self_pixel ;;
    c2 <- get_char other_pixel ;;
    if negb (String.eqb c1 c2) then Ok true
    else
      col1 <- get_color self_pixel ;;
      col2 <- get_color other_pixel ;;
      let '(r1, g1, b1) := to_tuple_rgb col1 in
      let '(r2, g2, b2) := to_tuple_rgb col2 in
      let distance_squared := (r1 - r2) ^ 2 + (g1 - g2) ^ 2 + (b1 - b2) ^ 2 in
      if Qle_bool threshold_squared distance_squared then Ok true else Ok false
  else Ok false.

(** Line 41: the synthetic blank cell. *)
Definition blank_pixel (x y : nat) : Pixel :=
  mkPixel " "%string (mkColor 0 0 0) (mkPosition (Z.of_nat x) (Z.of_nat y)).

(** Lines 18 to 42: the body of the inner loop, for column [x] of row [y]. *)
Definition scan_cell (self_row other_row : list (option Pixel))
    (term_width : Z) (threshold_squared : Q) (render_outside_bounds : bool)
    (y x : nat) (diff_buffer : list UpdateEntry) : result (list UpdateEntry) :=
  if (term_width <=? Z.of_nat x)%Z && negb render_outside_bounds then
    Ok diff_buffer
  else
    self_pixel <- (if (x <? length self_row)%nat then getitem self_row x else Ok None) ;;
    other_pixel <- (if (x <? length other_row)%nat then getitem other_row x else Ok None) ;;
    needs_update <- decide_needs_update self_pixel other_pixel threshold_squared ;;
    if needs_update then
      let pixel_to_draw :=
        match self_pixel with
        | Some px => px
        | None => blank_pixel x y
        end in
      Ok (diff_buffer ++ [((Z.of_nat x, Z.of_nat y), pixel_to_draw)])
    else Ok diff_buffer.

(** Lines 10 to 42: the body of the outer loop, for row [y]. *)
Definition scan_row (self_buffer other_buffer : Buffer)
    (term_width term_height : Z) (threshold_squared : Q)
    (render_outside_bounds : bool)
    (y : nat) (diff_buffer : list UpdateEntry) : result (list UpdateEntry) :=
  if (term_height <=? Z.of_nat y)%Z && negb render_outside_bounds then
    Ok diff_buffer
  else
    self_row <- (if (y <? length self_buffer)%nat then getitem self_buffer y else Ok []) ;;
    other_row <- (if (y <? length other_buffer)%nat then getitem other_buffer y else Ok []) ;;
    let max_width := Nat.max (length self_row) (length other_row) in
    for_in (range max_width)
      (scan_cell self_row other_row term_width threshold_squared
         render_outside_bounds y)
      diff_buffer.

Definition compute_diff_buffer (self_buffer other_buffer : Buffer)
    (term_width term_height : Z) (color_threshold : Q)
    (render_outside_bounds : bool) : result (list UpdateEntry) :=
  let diff_buffer := [] in
  let threshold_squared := color_threshold * color_threshold in
  let max_height := Nat.max (length self_buffer) (length other_buffer) in
  for_in (range max_height)
    (scan_row self_buffer other_buffer term_width term_height
       threshold_squared render_outside_bounds)
    diff_buffer.

(** The defaults of the two keyword parameters. *)
Definition default_color_threshold : Q := 0.05.
Definition default_render_outside_bounds : bool := false.

(** ** Vocabulary for the statements *)

(** The cell a buffer holds at column [x] of row [y]; [None] both for a
    stored [None] and for a position outside the buffer. *)
Definition cell_at (b : Buffer) (x y : nat) : option Pixel :=
  match nth_error b y with
  | Some row =>
      match nth_error row x with
      | Some c => c
      | None => None
      end
  | None => None
  end.

Definition distance_squared (p q : Pixel) : Q :=
  (red (color p) - red (color q)) ^ 2
  + (green (color p) - green (color q)) ^ 2
  + (blue (color p) - blue (color q)) ^ 2.

(** The decision of lines 25 to 37 as a total function of the two cells. *)
Definition needs_update (a b : option Pixel) (threshold_squared : Q) : bool :=
  match a, b with
  | None, None => false
  | Some _, None => true
  | None, Some _ => true
  | Some p, Some q =>
      negb (String.eqb (char p) (char q))
      || Qle_bool threshold_squared (distance_squared p q)
  end.

(** Whether the loops reach position (x, y) past both [continue] guards. *)
Definition in_scan (term_width term_height : Z) (render_outside_bounds : bool)
    (x y : nat) : bool :=
  negb ((term_height <=? Z.of_nat y)%Z && negb render_outside_bounds)
  && negb ((term_width <=? Z.of_nat x)%Z && negb render_outside_bounds).

Definition pixel_to_draw (self_pixel : option Pixel) (x y : nat) : Pixel :=
  match self_pixel with
  | Some px => px
  | None => blank_pixel x y
  end.

Definition pos_of (x y : nat) : Z * Z := (Z.of_nat x, Z.of_nat y).

(** Row-major order on positions (x, y): by row, then by column. *)
Definition row_major_lt (p q : Z * Z) : Prop :=
  (snd p < snd q)%Z \/ (snd p = snd q /\ (fst p < fst q)%Z).

Definition entry_lt (e1 e2 : UpdateEntry) : Prop := row_major_lt (fst e1) (fst e2).

(** The entries one position contributes, and the list the two loops
    build, written as a comprehension. *)
Definition cell_updates (self_buffer other_buffer : Buffer)
    (term_width : Z) (threshold_squared : Q) (render_outside_bounds : bool)
    (y x : nat) : list UpdateEntry :=
  if (term_width <=? Z.of_nat x)%Z && negb render_outside_bounds then []
  else if needs_update (cell_at self_buffer x y) (cell_at other_buffer x y)
            threshold_squared
  then [(pos_of x y, pixel_to_draw (cell_at self_buffer x y) x y)]
  else [].

Definition row_len (b : Buffer) (y : nat) : nat := length (nth y b []).

Definition row_updates (self_buffer other_buffer : Buffer)
    (term_width term_height : Z) (threshold_squared : Q)
    (render_outside_bounds : bool) (y : nat) : list UpdateEntry :=
  if (term_height <=? Z.of_nat y)%Z && negb render_outside_bounds then []
  else
    flat_map
      (cell_updates self_buffer other_buffer term_width threshold_squared
         render_outside_bounds y)
      (range (Nat.max (row_len self_buffer y) (row_len other_buffer y))).

Definition all_updates (self_buffer other_buffer : Buffer)
    (term_width term_height : Z) (color_threshold : Q)
    (render_outside_bounds : bool) : list UpdateEntry :=
  flat_map
    (row_updates self_buffer other_buffer term_width term_height
       (color_threshold * color_threshold) render_outside_bounds)
    (range (Nat.max (length self_buffer) (length other_buffer))).

(** ** Sample cells *)

Definition red_c : Color := mkColor 255 0 0.
Definition blue_c : Color := mkColor 0 0 255.
Definition black_c : Color := mkColor 0 0 0.
Definition A_red : Pixel := mkPixel "A"%string red_c (mkPosition 0 0).
Definition A_blue : Pixel := mkPixel "A"%string blue_c (mkPosition 0 0).

(** A cell with glyph A whose red channel is [v]. *)
Definition A_grey (v : Q) : Pixel := mkPixel "A"%string (mkColor v 0 0) (mkPosition 0 0).

(** A frame whose only content is one cell, at column 10 of row 10. *)
Definition X_10_10 : Pixel := mkPixel "X"%string red_c (mkPosition 10 10).
Definition content_at_10_10 : Buffer :=
  repeat [] 10 ++ [repeat None 10 ++ [Some X_10_10]].

(** A row of [n] cells with glyph A, for row [y]. *)
Definition row_of (n : nat) (y : nat) : list (option Pixel) :=
  map (fun x => Some (mkPixel "A"%string red_c (mkPosition (Z.of_nat x) (Z.of_nat y))))
    (seq 0 n).

(** Rows of lengths [3, 0, 5], and a single row of length 5. *)
Definition jagged_3_0_5 : Buffer := [row_of 3 0; row_of 0 1; row_of 5 2].
Definition single_5 : Buffer := [row_of 5 0].

(** ** Vocabulary for the further properties *)

(** An entry whose position lies inside the viewport. *)
Definition in_viewport (w h : Z) (e : UpdateEntry) : bool :=
  ((fst (fst e) <? w)%Z && (snd (fst e) <? h)%Z)%bool.


(** ** The loops compute the comprehension *)

Lemma for_in_flat_map (A : Type) (xs : list nat)
    (body : nat -> list A -> result (list A)) (f : nat -> list A) :
  (forall i acc, In i xs -> body i acc = Ok (acc ++ f i)) ->
  forall acc, for_in xs body acc = Ok (acc ++ flat_map f xs).
Proof.
  induction xs as [|i xs IH]; intros Hbody acc; simpl.
  - now rewrite app_nil_r.
  - rewrite Hbody by now left. simpl.
    rewrite IH by (intros; apply Hbody; now right).
    now rewrite app_assoc.
Qed.

Lemma guarded_row (b : Buffer) (y : nat) :
  (if (y <? length b)%nat then getitem b y else Ok []) = Ok (nth y b []).
Proof.
  unfold getitem. destruct (Nat.ltb_spec y (length b)) as [H|H].
  - destruct (nth_error b y) as [row|] eqn:E.
    + now rewrite (nth_error_nth _ _ _ E).
    + apply nth_error_None in E. lia.
  - now rewrite nth_overflow.
Qed.

Lemma guarded_cell (row : list (option Pixel)) (x : nat) :
  (if (x <? length row)%nat then getitem row x else Ok None)
  = Ok (match nth_error row x with Some c => c | None => None end).
Proof.
  unfold getitem. destruct (Nat.ltb_spec x (length row)) as [H|H].
  - destruct (nth_error row x) as [c|] eqn:E; [reflexivity|].
    apply nth_error_None in E. lia.
  - apply nth_error_None in H. now rewrite H.
Qed.

Lemma cell_at_nth (b : Buffer) (x y : nat) :
  cell_at b x y = match nth_error (nth y b []) x with Some c => c | None => None end.
Proof.
  unfold cell_at. destruct (nth_error b y) as [row|] eqn:E.
  - now rewrite (nth_error_nth _ _ _ E).
  - apply nth_error_None in E. rewrite nth_overflow by exact E.
    now destruct x.
Qed.

Lemma cell_at_Some_bounds (b : Buffer) (x y : nat) (p : Pixel) :
  cell_at b x y = Some p -> (y < length b)%nat /\ (x < row_len b y)%nat.
Proof.
  intros H. split.
  - unfold cell_at in H. destruct (nth_error b y) eqn:E; [|discriminate].
    apply nth_error_Some. congruence.
  - rewrite cell_at_nth in H. unfold row_len.
    destruct (nth_error (nth y b []) x) eqn:E; [|discriminate].
    apply nth_error_Some. congruence.
Qed.

Lemma decide_needs_update_eq (a b : option Pixel) (t2 : Q) :
  decide_needs_update a b t2 = Ok (needs_update a b t2).
Proof.
  unfold decide_needs_update, needs_update, distance_squared.
  destruct a as [p|], b as [q|]; simpl; try reflexivity.
  destruct (String.eqb (char p) (char q)); simpl; [|reflexivity].
  now destruct (Qle_bool _ _).
Qed.

Lemma scan_cell_eq (self_buffer other_buffer : Buffer) (w : Z) (t2 : Q)
    (rob : bool) (y x : nat) (acc : list UpdateEntry) :
  scan_cell (nth y self_buffer []) (nth y other_buffer []) w t2 rob y x acc
  = Ok (acc ++ cell_updates self_buffer other_buffer w t2 rob y x).
Proof.
  unfold scan_cell, cell_updates.
  destruct ((w <=? Z.of_nat x)%Z && negb rob).
  - now rewrite app_nil_r.
  - rewrite !guarded_cell, <- !cell_at_nth. simpl.
    rewrite decide_needs_update_eq. simpl.
    destruct (needs_update _ _ _); [reflexivity | now rewrite app_nil_r].
Qed.

Lemma scan_row_eq (self_buffer other_buffer : Buffer) (w h : Z) (t2 : Q)
    (rob : bool) (y : nat) (acc : list UpdateEntry) :
  scan_row self_buffer other_buffer w h t2 rob y acc
  = Ok (acc ++ row_updates self_buffer other_buffer w h t2 rob y).
Proof.
  unfold scan_row, row_updates.
  destruct ((h <=? Z.of_nat y)%Z && negb rob).
  - now rewrite app_nil_r.
  - rewrite !guarded_row. simpl.
    apply for_in_flat_map. intros x acc' _. apply scan_cell_eq.
Qed.

(** The routine never raises, and its result is the comprehension. *)
Lemma compute_diff_buffer_eq (self_buffer other_buffer : Buffer) (w h : Z)
    (t : Q) (rob : bool) :
  compute_diff_buffer self_buffer other_buffer w h t rob
  = Ok (all_updates self_buffer other_buffer w h t rob).
Proof.
  unfold compute_diff_buffer, all_updates.
  rewrite for_in_flat_map
    with (f := row_updates self_buffer other_buffer w h (t * t) rob).
  - reflexivity.
  - intros y acc _. apply scan_row_eq.
Qed.

(** ** Which entries the update list holds *)

Lemma in_cell_updates (s o : Buffer) (w : Z) (t2 : Q) (rob : bool) (y x : nat)
    (e : UpdateEntry) :
  In e (cell_updates s o w t2 rob y x) <->
  e = (pos_of x y, pixel_to_draw (cell_at s x y) x y)
  /\ ((w <=? Z.of_nat x)%Z && negb rob) = false
  /\ needs_update (cell_at s x y) (cell_at o x y) t2 = true.
Proof.
  unfold cell_updates.
  destruct ((w <=? Z.of_nat x)%Z && negb rob); simpl.
  - split; [tauto | intros (_ & H & _); discriminate].
  - destruct (needs_update _ _ _); simpl.
    + split; [intros [<-|[]]; auto | intros (-> & _); now left].
    + split; [tauto | intros (_ & _ & H); discriminate].
Qed.

Lemma needs_update_extent (s o : Buffer) (t2 : Q) (x y : nat) :
  needs_update (cell_at s x y) (cell_at o x y) t2 = true ->
  (y < Nat.max (length s) (length o))%nat
  /\ (x < Nat.max (row_len s y) (row_len o y))%nat.
Proof.
  intros H.
  destruct (cell_at s x y) as [p|] eqn:Es.
  - apply cell_at_Some_bounds in Es. lia.
  - destruct (cell_at o x y) as [q|] eqn:Eo; [|discriminate].
    apply cell_at_Some_bounds in Eo. lia.
Qed.

Lemma in_row_updates (s o : Buffer) (w h : Z) (t2 : Q) (rob : bool) (y : nat)
    (e : UpdateEntry) :
  In e (row_updates s o w h t2 rob y) <->
  exists x, e = (pos_of x y, pixel_to_draw (cell_at s x y) x y)
    /\ in_scan w h rob x y = true
    /\ needs_update (cell_at s x y) (cell_at o x y) t2 = true.
Proof.
  unfold row_updates, in_scan.
  destruct ((h <=? Z.of_nat y)%Z && negb rob); simpl.
  - split; [tauto | intros (x & _ & H & _); discriminate].
  - rewrite in_flat_map. split.
    + intros (x & _ & Hx). apply in_cell_updates in Hx as (-> & Hw & Hn).
      exists x. now rewrite Hw.
    + intros (x & -> & Hw & Hn). exists x. split.
      * apply in_seq. apply needs_update_extent in Hn. lia.
      * apply in_cell_updates. apply negb_true_iff in Hw. auto.
Qed.

Lemma in_all_updates (s o : Buffer) (w h : Z) (t : Q) (rob : bool)
    (e : UpdateEntry) :
  In e (all_updates s o w h t rob) <->
  exists x y, e = (pos_of x y, pixel_to_draw (cell_at s x y) x y)
    /\ in_scan w h rob x y = true
    /\ needs_update (cell_at s x y) (cell_at o x y) (t * t) = true.
Proof.
  unfold all_updates. rewrite in_flat_map. split.
  - intros (y & _ & Hy). apply in_row_updates in Hy as (x & H).
    now exists x, y.
  - intros (x & y & He & Hs & Hn). exists y. split.
    + apply in_seq. apply needs_update_extent in Hn. lia.
    + apply in_row_updates. now exists x.
Qed.

Lemma pos_of_inj (x y x' y' : nat) : pos_of x y = pos_of x' y' -> x = x' /\ y = y'.
Proof. unfold pos_of. intros H. injection H as Hx Hy. lia. Qed.

(** An entry sits at position (x, y) exactly when the position is reached
    by the scan and the decision there is positive. *)
Lemma in_positions (s o : Buffer) (w h : Z) (t : Q) (rob : bool) (x y : nat) :
  In (pos_of x y) (map fst (all_updates s o w h t rob)) <->
  in_scan w h rob x y = true
  /\ needs_update (cell_at s x y) (cell_at o x y) (t * t) = true.
Proof.
  rewrite in_map_iff. split.
  - intros (e & He & Hin). apply in_all_updates in Hin as (x' & y' & -> & Hs & Hn).
    simpl in He. apply pos_of_inj in He as (-> & ->). auto.
  - intros (Hs & Hn). eexists. split; [|apply in_all_updates; eauto]. reflexivity.
Qed.

(** ** Row-major order of the update list *)

Section Sorting.

Variable A : Type.
Variable R : A -> A -> Prop.

Lemma StronglySorted_app_intro (l1 l2 : list A) :
  StronglySorted R l1 -> StronglySorted R l2 ->
  (forall a b, In a l1 -> In b l2 -> R a b) ->
  StronglySorted R (l1 ++ l2).
Proof.
  intros H1 H2 H12. induction H1 as [|a l1 Hl1 IH Ha]; simpl.
  - exact H2.
  - constructor.
    + apply IH. intros; apply H12; simpl; auto.
    + apply Forall_app. split; [exact Ha|].
      apply Forall_forall. intros b Hb. apply H12; simpl; auto.
Qed.

Lemma StronglySorted_flat_map_seq (f : nat -> list A) (n start : nat) :
  (forall i, StronglySorted R (f i)) ->
  (forall i j a b, (i < j)%nat -> In a (f i) -> In b (f j) -> R a b) ->
  StronglySorted R (flat_map f (seq start n)).
Proof.
  intros Hf Hlt. revert start. induction n as [|n IH]; intros start; simpl.
  - constructor.
  - apply StronglySorted_app_intro; [apply Hf | apply IH |].
    intros a b Ha Hb. apply in_flat_map in Hb as (j & Hj & Hb).
    apply in_seq in Hj. apply (Hlt start j); auto. lia.
Qed.

Lemma StronglySorted_nil_or_one (l : list A) :
  (length l <= 1)%nat -> StronglySorted R l.
Proof.
  destruct l as [|a [|b l]]; simpl; intros H; try lia; repeat constructor.
Qed.

End Sorting.

Lemma StronglySorted_map (A B : Type) (R : B -> B -> Prop) (g : A -> B)
    (l : list A) :
  StronglySorted (fun a b => R (g a) (g b)) l -> StronglySorted R (map g l).
Proof.
  induction 1 as [|a l Hl IH Ha]; simpl; constructor; [exact IH|].
  apply Forall_map. exact Ha.
Qed.

Lemma cell_updates_short (s o : Buffer) (w : Z) (t2 : Q) (rob : bool) (y x : nat) :
  (length (cell_updates s o w t2 rob y x) <= 1)%nat.
Proof.
  unfold cell_updates.
  destruct (_ && _); [simpl; lia|]. destruct (needs_update _ _ _); simpl; lia.
Qed.

Lemma row_updates_sorted (s o : Buffer) (w h : Z) (t2 : Q) (rob : bool) (y : nat) :
  StronglySorted entry_lt (row_updates s o w h t2 rob y).
Proof.
  unfold row_updates. destruct (_ && _); [constructor|].
  apply StronglySorted_flat_map_seq.
  - intros x. apply StronglySorted_nil_or_one, cell_updates_short.
  - intros i j a b Hij Ha Hb.
    apply in_cell_updates in Ha as (-> & _). apply in_cell_updates in Hb as (-> & _).
    right. simpl. lia.
Qed.

Lemma all_updates_sorted (s o : Buffer) (w h : Z) (t : Q) (rob : bool) :
  StronglySorted entry_lt (all_updates s o w h t rob).
Proof.
  apply StronglySorted_flat_map_seq.
  - intros y. apply row_updates_sorted.
  - intros i j a b Hij Ha Hb.
    apply in_row_updates in Ha as (xa & -> & _).
    apply in_row_updates in Hb as (xb & -> & _).
    left. simpl. lia.
Qed.

Lemma row_major_lt_irrefl (p : Z * Z) : ~ row_major_lt p p.
Proof. unfold row_major_lt. lia. Qed.

Lemma StronglySorted_NoDup (A : Type) (R : A -> A -> Prop) (l : list A) :
  (forall a, ~ R a a) -> StronglySorted R l -> NoDup l.
Proof.
  intros Hirr. induction 1 as [|a l Hl IH Ha]; constructor; [|exact IH].
  intros Hin. rewrite Forall_forall in Ha. exact (Hirr a (Ha a Hin)).
Qed.

(** ** Arithmetic of the colour distance *)

Lemma distance_squared_refl (p : Pixel) : distance_squared p p == 0.
Proof. unfold distance_squared. ring. Qed.

Lemma distance_squared_sym (p q : Pixel) :
  distance_squared p q == distance_squared q p.
Proof. unfold distance_squared. ring. Qed.

Lemma Qsquare_nonneg (a : Q) : 0 <= a ^ 2.
Proof.
  assert (E : a ^ 2 == a * a) by ring. rewrite E.
  destruct (Qlt_le_dec a 0) as [H|H].
  - assert (E' : a * a == (- a) * (- a)) by ring. rewrite E'.
    assert (0 <= - a) by (apply Qlt_le_weak in H; apply (Qopp_le_compat a 0) in H; exact H).
    now apply Qmult_le_0_compat.
  - now apply Qmult_le_0_compat.
Qed.

Lemma distance_squared_nonneg (p q : Pixel) : 0 <= distance_squared p q.
Proof.
  unfold distance_squared.
  pose proof (Qsquare_nonneg (red (color p) - red (color q))) as H1.
  pose proof (Qsquare_nonneg (green (color p) - green (color q))) as H2.
  pose proof (Qsquare_nonneg (blue (color p) - blue (color q))) as H3.
  pose proof (Qplus_le_compat _ _ _ _ H1 H2) as H12.
  pose proof (Qplus_le_compat _ _ _ _ H12 H3) as H123.
  rewrite !Qplus_0_l in H123. exact H123.
Qed.

Lemma square_pos (t : Q) : ~ t == 0 -> 0 < t * t.
Proof.
  intros Ht.
  assert (H : 0 <= t * t).
  { pose proof (Qsquare_nonneg t) as H2.
    assert (E : t ^ 2 == t * t) by ring. now rewrite E in H2. }
  apply Qle_lteq in H. destruct H as [H|H]; [exact H|].
  symmetry in H. apply Qmult_integral in H. tauto.
Qed.

Lemma square_opp (t : Q) : (- t) * (- t) == t * t.
Proof. ring. Qed.

(** ** Properties of the decision *)

Lemma decide_needs_update_true (a b : option Pixel) (t2 : Q) :
  decide_needs_update a b t2 = Ok true <-> needs_update a b t2 = true.
Proof.
  rewrite decide_needs_update_eq. split; [intros H; now injection H | now intros ->].
Qed.

Lemma needs_update_sym (a b : option Pixel) (t2 : Q) :
  needs_update a b t2 = needs_update b a t2.
Proof.
  destruct a as [p|], b as [q|]; simpl; try reflexivity.
  rewrite String.eqb_sym. f_equal.
  apply Qleb_comp; [reflexivity | apply distance_squared_sym].
Qed.

Lemma needs_update_proper (a b : option Pixel) (t2 t2' : Q) :
  t2 == t2' -> needs_update a b t2 = needs_update a b t2'.
Proof.
  intros E. destruct a as [p|], b as [q|]; simpl; try reflexivity.
  f_equal. apply Qleb_comp; [exact E | reflexivity].
Qed.

Lemma needs_update_same_char (p q : Pixel) (t2 : Q) :
  char p = char q ->
  (needs_update (Some p) (Some q) t2 = true <-> t2 <= distance_squared p q).
Proof.
  intros E. simpl. rewrite E, String.eqb_refl. simpl. apply Qle_bool_iff.
Qed.

Lemma needs_update_refl (c : option Pixel) (t : Q) :
  ~ t == 0 -> needs_update c c (t * t) = false.
Proof.
  intros Ht. destruct c as [p|]; [|reflexivity].
  apply not_true_is_false. rewrite needs_update_same_char by reflexivity.
  rewrite distance_squared_refl. apply Qlt_not_le. now apply square_pos.
Qed.

(** ** The update list as a function of the cells *)

Lemma map_flat_map (A B C : Type) (g : B -> C) (f : A -> list B) (l : list A) :
  map g (flat_map f l) = flat_map (fun a => map g (f a)) l.
Proof.
  induction l as [|a l IH]; simpl; [reflexivity|].
  now rewrite map_app, IH.
Qed.

Lemma cell_positions_sym (s o : Buffer) (w : Z) (t2 : Q) (rob : bool) (y x : nat) :
  map fst (cell_updates s o w t2 rob y x) = map fst (cell_updates o s w t2 rob y x).
Proof.
  unfold cell_updates. destruct (_ && _); [reflexivity|].
  rewrite (needs_update_sym (cell_at o x y)).
  now destruct (needs_update _ _ _).
Qed.

Lemma row_positions_sym (s o : Buffer) (w h : Z) (t2 : Q) (rob : bool) (y : nat) :
  map fst (row_updates s o w h t2 rob y) = map fst (row_updates o s w h t2 rob y).
Proof.
  unfold row_updates. destruct (_ && _); [reflexivity|].
  rewrite !map_flat_map, (Nat.max_comm (row_len o y)).
  apply flat_map_ext. intros x. apply cell_positions_sym.
Qed.

Lemma all_positions_sym (s o : Buffer) (w h : Z) (t : Q) (rob : bool) :
  map fst (all_updates s o w h t rob) = map fst (all_updates o s w h t rob).
Proof.
  unfold all_updates.
  rewrite !map_flat_map, (Nat.max_comm (length o)).
  apply flat_map_ext. intros y. apply row_positions_sym.
Qed.

Lemma all_updates_threshold (s o : Buffer) (w h : Z) (t t' : Q) (rob : bool) :
  t * t == t' * t' -> all_updates s o w h t rob = all_updates s o w h t' rob.
Proof.
  intros E. unfold all_updates. apply flat_map_ext. intros y.
  unfold row_updates. destruct (_ && _); [reflexivity|].
  apply flat_map_ext. intros x. unfold cell_updates.
  now rewrite (needs_update_proper _ _ E).
Qed.

Lemma nil_of_no_member (A : Type) (l : list A) : (forall a, ~ In a l) -> l = [].
Proof.
  destruct l as [|a l]; [reflexivity|]. intros H. destruct (H a). now left.
Qed.

Section SortedUnique.

Variable A : Type.
Variable R : A -> A -> Prop.
Hypothesis R_asym : forall a b, R a b -> R b a -> False.

(** Two lists sorted for an asymmetric order and with the same members are
    the same list. *)
Lemma StronglySorted_unique (l1 l2 : list A) :
  StronglySorted R l1 -> StronglySorted R l2 ->
  (forall a, In a l1 <-> In a l2) -> l1 = l2.
Proof.
  intros H1. revert l2. induction H1 as [|a1 l1 Hs1 IH Ha1]; intros l2 H2 Hmem.
  - symmetry. apply nil_of_no_member. intros a Ha. now apply Hmem in Ha.
  - destruct H2 as [|a2 l2 Hs2 Ha2].
    + destruct (proj1 (Hmem a1)). now left.
    + rewrite Forall_forall in Ha1, Ha2.
      assert (E : a1 = a2).
      { destruct (proj1 (Hmem a1) (or_introl eq_refl)) as [E|Hin1]; [now symmetry|].
        destruct (proj2 (Hmem a2) (or_introl eq_refl)) as [E|Hin2]; [exact E|].
        destruct (R_asym (Ha1 _ Hin2) (Ha2 _ Hin1)). }
      subst a2. f_equal. apply IH; [exact Hs2|].
      intros a. split; intros Hin.
      * destruct (proj1 (Hmem a) (or_intror Hin)) as [E|Hin']; [|exact Hin'].
        subst a. destruct (R_asym (Ha1 _ Hin) (Ha1 _ Hin)).
      * destruct (proj2 (Hmem a) (or_intror Hin)) as [E|Hin']; [|exact Hin'].
        subst a. destruct (R_asym (Ha2 _ Hin) (Ha2 _ Hin)).
Qed.

End SortedUnique.

Lemma entry_lt_asym (e1 e2 : UpdateEntry) : entry_lt e1 e2 -> entry_lt e2 e1 -> False.
Proof. unfold entry_lt, row_major_lt. lia. Qed.

(** The update list depends on the two buffers only through the cells they
    hold, where a position outside a buffer holds no cell. *)
Lemma all_updates_ext (s o s' o' : Buffer) (w h : Z) (t : Q) (rob : bool) :
  (forall x y, cell_at s x y = cell_at s' x y) ->
  (forall x y, cell_at o x y = cell_at o' x y) ->
  all_updates s o w h t rob = all_updates s' o' w h t rob.
Proof.
  intros Hs Ho.
  apply StronglySorted_unique with (R := entry_lt);
    [exact entry_lt_asym | apply all_updates_sorted | apply all_updates_sorted |].
  intros e. rewrite !in_all_updates.
  split; intros (x & y & He & Hscan & Hn); exists x, y.
  - now rewrite <- Hs, <- Ho.
  - now rewrite Hs, Ho.
Qed.

Lemma cell_at_outside (b : Buffer) (x y : nat) :
  (length b <= y)%nat \/ (row_len b y <= x)%nat -> cell_at b x y = None.
Proof.
  intros H. destruct (cell_at b x y) as [p|] eqn:E; [|reflexivity].
  apply cell_at_Some_bounds in E. lia.
Qed.

Lemma in_scan_in_bounds (w h : Z) (x y : nat) :
  in_scan w h false x y = true <-> (Z.of_nat x < w)%Z /\ (Z.of_nat y < h)%Z.
Proof.
  unfold in_scan. rewrite !andb_true_r, andb_true_iff, !negb_true_iff, !Z.leb_gt.
  tauto.
Qed.

Lemma in_scan_outside (w h : Z) (x y : nat) : in_scan w h true x y = true.
Proof. unfold in_scan. now rewrite !andb_false_r. Qed.

(** ** Properties of [compute_diff_buffer] *)

(** C1, as stated, fails: with the buffers passed in the order
    (previous, current), the entry does not carry the current frame's cell.
    Diffing previous = one row [('A', red)] against current = one row
    [('A', blue)] does not yield [((0,0), ('A', blue))], and diffing
    previous = [('A', red)] against current = [] does not yield the blank
    cell: both calls yield [((0,0), ('A', red))]. *)
Lemma payload_is_not_second_buffer_cell :
  compute_diff_buffer [[Some A_red]] [[Some A_blue]] 80 24
    default_color_threshold false <> Ok [((0, 0)%Z, A_blue)]
  /\ compute_diff_buffer [[Some A_red]] [] 80 24
       default_color_threshold false <> Ok [((0, 0)%Z, blank_pixel 0 0)]
  /\ compute_diff_buffer [[Some A_red]] [[Some A_blue]] 80 24
       default_color_threshold false = Ok [((0, 0)%Z, A_red)]
  /\ compute_diff_buffer [[Some A_red]] [] 80 24
       default_color_threshold false = Ok [((0, 0)%Z, A_red)].
Proof.
  repeat split; try (vm_compute; reflexivity); vm_compute; intros H; discriminate H.
Qed.

(** C1, amended: at every position the scan reaches and where needs_update
    is decided true, the update list holds an entry that carries the cell
    of the first buffer argument ([self_buffer]) when that buffer has a
    cell there, and otherwise the synthetic blank cell (space glyph, RGB
    black) positioned at (x, y); the list holds no other entries. Diffing
    first = [('A', blue)] against second = [('A', red)] with tolerance 0.05
    and viewport 80x24 yields exactly [((0,0), ('A', blue))], and diffing
    first = [] against second = [('A', red)] yields exactly
    [((0,0), (' ', black))]. *)
Theorem update_entry_carries_first_buffer_cell :
  (forall (self_buffer other_buffer : Buffer) (w h : Z) (t : Q) (rob : bool),
     exists l,
       compute_diff_buffer self_buffer other_buffer w h t rob = Ok l
       /\ forall e, In e l <->
            exists x y,
              in_scan w h rob x y = true
              /\ decide_needs_update (cell_at self_buffer x y)
                   (cell_at other_buffer x y) (t * t) = Ok true
              /\ e = ((Z.of_nat x, Z.of_nat y),
                      match cell_at self_buffer x y with
                      | Some c => c
                      | None => mkPixel " "%string (mkColor 0 0 0)
                                  (mkPosition (Z.of_nat x) (Z.of_nat y))
                      end))
  /\ compute_diff_buffer [[Some A_blue]] [[Some A_red]] 80 24
       default_color_threshold false = Ok [((0, 0)%Z, A_blue)]
  /\ compute_diff_buffer [] [[Some A_red]] 80 24
       default_color_threshold false
     = Ok [((0, 0)%Z, mkPixel " "%string black_c (mkPosition 0 0))].
Proof.
  split; [|split; vm_compute; reflexivity].
  intros s o w h t rob. exists (all_updates s o w h t rob).
  split; [apply compute_diff_buffer_eq|].
  intros e. rewrite in_all_updates.
  split; intros (x & y & H); exists x, y; rewrite decide_needs_update_true in *;
    unfold pos_of, pixel_to_draw, blank_pixel in *; tauto.
Qed.

(** C2, as stated, fails: calls with a negative viewport width, a negative
    viewport height or a negative tolerance raise nothing and return an
    update list. *)
Lemma negative_arguments_return_normally :
  compute_diff_buffer [[Some A_red]] [] (-1) 24 default_color_threshold false
    = Ok []
  /\ compute_diff_buffer [[Some A_red]] [] 80 (-1) default_color_threshold false
    = Ok []
  /\ compute_diff_buffer [[Some A_red]] [] 80 24 (- default_color_threshold) false
    = Ok [((0, 0)%Z, A_red)]
  /\ ~ (exists e, compute_diff_buffer [[Some A_red]] [] (-1) (-1)
                    (- default_color_threshold) false = Raise e).
Proof.
  repeat split; try (vm_compute; reflexivity).
  intros (e & H). vm_compute in H. discriminate H.
Qed.

(** C2, amended: a call whose viewport width, viewport height or tolerance
    is negative raises no error and returns an update list; when the
    width or the height is negative and out-of-bounds rendering is off,
    that list is empty. *)
Theorem negative_arguments_are_not_rejected
    (self_buffer other_buffer : Buffer) (w h : Z) (t : Q) (rob : bool) :
  (w < 0)%Z \/ (h < 0)%Z \/ t < 0 ->
  exists l,
    compute_diff_buffer self_buffer other_buffer w h t rob = Ok l
    /\ ((w < 0)%Z \/ (h < 0)%Z -> rob = false -> l = []).
Proof.
  intros _. exists (all_updates self_buffer other_buffer w h t rob).
  split; [apply compute_diff_buffer_eq|].
  intros Hneg ->. apply nil_of_no_member. intros e He.
  apply in_all_updates in He as (x & y & _ & Hscan & _).
  apply in_scan_in_bounds in Hscan. lia.
Qed.

(** The amended C2 at viewport -1 x -1 and tolerance -0.05: the call
    returns the empty list. *)
Lemma negative_arguments_are_not_rejected_witness :
  exists l,
    compute_diff_buffer [[Some A_red]] [] (-1) (-1)
      (- default_color_threshold) false = Ok l
    /\ l = [].
Proof.
  destruct (@negative_arguments_are_not_rejected [[Some A_red]] [] (-1) (-1)
              (- default_color_threshold) false) as (l & Hl & Hnil).
  - left. lia.
  - exists l. split; [exact Hl|]. apply Hnil; [left; lia | reflexivity].
Defined.

(** C3: for every buffer F and all non-negative viewport sizes w and h,
    diff(F, F, w, h) with the default tolerance returns the empty update
    list (with out-of-bounds rendering off, the default, and on). *)
Theorem identity_diff_is_empty (F : Buffer) (w h : Z) (rob : bool) :
  (0 <= w)%Z -> (0 <= h)%Z ->
  compute_diff_buffer F F w h default_color_threshold rob = Ok [].
Proof.
  intros _ _. rewrite compute_diff_buffer_eq. f_equal.
  apply nil_of_no_member. intros e He.
  apply in_all_updates in He as (x & y & _ & _ & Hn).
  rewrite needs_update_refl in Hn; [discriminate|].
  intros E. discriminate E.
Qed.

(** C3 on a jagged three-row buffer with viewport 80x24. *)
Lemma identity_diff_is_empty_witness :
  compute_diff_buffer [[Some A_red; None]; []; [Some A_blue]]
    [[Some A_red; None]; []; [Some A_blue]] 80 24
    default_color_threshold default_render_outside_bounds = Ok [].
Proof.
  apply (@identity_diff_is_empty _ 80 24 false); lia.
Defined.



(** C5: with out-of-bounds rendering off, the update list has no entry at
    a position (x, y) with x >= viewport width or y >= viewport height;
    with it on, the viewport plays no part and every position of the union
    extent of the two buffers is scanned: there is an entry exactly where
    needs_update is decided true. With content at (10, 10) in one frame
    and viewport 5x5, no entry for (10, 10) appears when the flag is off
    and one does when it is on, whichever argument the frame is. *)
Theorem viewport_clipping :
  (forall (self_buffer other_buffer : Buffer) (w h : Z) (t : Q),
     exists l,
       compute_diff_buffer self_buffer other_buffer w h t false = Ok l
       /\ forall x y c, In ((x, y), c) l -> (0 <= x < w)%Z /\ (0 <= y < h)%Z)
  /\ (forall (self_buffer other_buffer : Buffer) (w h : Z) (t : Q),
        exists l,
          compute_diff_buffer self_buffer other_buffer w h t true = Ok l
          /\ (forall w' h',
                compute_diff_buffer self_buffer other_buffer w' h' t true = Ok l)
          /\ (forall x y : nat,
                In (Z.of_nat x, Z.of_nat y) (map fst l) <->
                decide_needs_update (cell_at self_buffer x y)
                  (cell_at other_buffer x y) (t * t) = Ok true))
  /\ compute_diff_buffer [] content_at_10_10 5 5 default_color_threshold false
       = Ok []
  /\ compute_diff_buffer content_at_10_10 [] 5 5 default_color_threshold false
       = Ok []
  /\ compute_diff_buffer [] content_at_10_10 5 5 default_color_threshold true
       = Ok [((10, 10)%Z, blank_pixel 10 10)]
  /\ compute_diff_buffer content_at_10_10 [] 5 5 default_color_threshold true
       = Ok [((10, 10)%Z, X_10_10)].
Proof.
  split; [|split; [|repeat split; vm_compute; reflexivity]].
  - intros s o w h t. exists (all_updates s o w h t false).
    split; [apply compute_diff_buffer_eq|].
    intros x y c Hin. apply in_all_updates in Hin as (x' & y' & E & Hscan & _).
    apply in_scan_in_bounds in Hscan. unfold pos_of in E.
    injection E as -> -> _. lia.
  - intros s o w h t. exists (all_updates s o w h t true).
    split; [apply compute_diff_buffer_eq|]. split.
    + intros w' h'. rewrite compute_diff_buffer_eq. f_equal.
      apply StronglySorted_unique with (R := entry_lt);
        [exact entry_lt_asym | apply all_updates_sorted | apply all_updates_sorted |].
      intros e. rewrite !in_all_updates.
      split; intros (x & y & He & _ & Hn); exists x, y;
        now rewrite in_scan_outside.
    + intros x y. fold (pos_of x y).
      rewrite in_positions, in_scan_outside, decide_needs_update_true. tauto.
Qed.

(** C6: the positions of the returned entries are strictly increasing in
    row-major order (by y, then by x within a row), so no position occurs
    twice, and two calls on the same inputs return the same list. *)
Theorem updates_in_row_major_order
    (self_buffer other_buffer : Buffer) (w h : Z) (t : Q) (rob : bool) :
  exists l,
    compute_diff_buffer self_buffer other_buffer w h t rob = Ok l
    /\ StronglySorted row_major_lt (map fst l)
    /\ NoDup (map fst l)
    /\ forall l', compute_diff_buffer self_buffer other_buffer w h t rob = Ok l'
                  -> l' = l.
Proof.
  exists (all_updates self_buffer other_buffer w h t rob).
  assert (Hs : StronglySorted row_major_lt
                 (map fst (all_updates self_buffer other_buffer w h t rob))).
  { apply StronglySorted_map. apply all_updates_sorted. }
  split; [apply compute_diff_buffer_eq|]. split; [exact Hs|]. split.
  - exact (StronglySorted_NoDup row_major_lt_irrefl Hs).
  - intros l' H. rewrite compute_diff_buffer_eq in H. now injection H.
Qed.

(** C7: diff(A, B, ...) and diff(B, A, ...) with the same remaining
    parameters have entries at exactly the same positions, in the same
    order. *)
Theorem detection_is_symmetric (A B : Buffer) (w h : Z) (t : Q) (rob : bool) :
  exists lab lba,
    compute_diff_buffer A B w h t rob = Ok lab
    /\ compute_diff_buffer B A w h t rob = Ok lba
    /\ map fst lab = map fst lba
    /\ forall pos, In pos (map fst lab) <-> In pos (map fst lba).
Proof.
  exists (all_updates A B w h t rob), (all_updates B A w h t rob).
  rewrite !compute_diff_buffer_eq, all_positions_sym. tauto.
Qed.

(** C8: for every pair of buffers, whatever their shapes, the routine
    raises no error and returns an update list; a position beyond a row's
    length or beyond a buffer's row count holds no cell, and the result
    depends on the buffers only through the cells they hold, so such a
    position counts as an absent cell. Rows of lengths [3, 0, 5] diffed
    against rows of lengths [5] give entries at columns 3 and 4 of row 0
    and at the five columns of row 2. *)
Theorem never_raises_on_any_shape :
  (forall (self_buffer other_buffer : Buffer) (w h : Z) (t : Q) (rob : bool),
     exists l, compute_diff_buffer self_buffer other_buffer w h t rob = Ok l)
  /\ (forall (b : Buffer) (x y : nat),
        (length b <= y)%nat \/ (length (nth y b []) <= x)%nat ->
        cell_at b x y = None)
  /\ (forall (s o s' o' : Buffer) (w h : Z) (t : Q) (rob : bool),
        (forall x y, cell_at s x y = cell_at s' x y) ->
        (forall x y, cell_at o x y = cell_at o' x y) ->
        compute_diff_buffer s o w h t rob = compute_diff_buffer s' o' w h t rob)
  /\ (exists l,
        compute_diff_buffer jagged_3_0_5 single_5 80 24
          default_color_threshold false = Ok l
        /\ map fst l
           = [(3, 0); (4, 0); (0, 2); (1, 2); (2, 2); (3, 2); (4, 2)]%Z).
Proof.
  split; [|split; [|split]].
  - intros s o w h t rob. eexists. apply compute_diff_buffer_eq.
  - intros b x y. apply cell_at_outside.
  - intros s o s' o' w h t rob Hs Ho.
    rewrite !compute_diff_buffer_eq. f_equal. now apply all_updates_ext.
  - eexists. split; vm_compute; reflexivity.
Qed.

(** C9: with tolerance exactly 0, every position the scan reaches (inside
    the viewport, or anywhere with out-of-bounds rendering on) where both
    buffers hold a cell with the same character gets an entry, also when
    the two colours are equal; so diff(F, F, w, h, 0) is not empty when F
    has a cell at such a position. *)
Theorem zero_tolerance_reports_every_shared_cell
    (self_buffer other_buffer : Buffer) (w h : Z) (rob : bool)
    (x y : nat) (p q : Pixel) :
  cell_at self_buffer x y = Some p ->
  cell_at other_buffer x y = Some q ->
  char p = char q ->
  in_scan w h rob x y = true ->
  (exists l,
     compute_diff_buffer self_buffer other_buffer w h 0 rob = Ok l
     /\ In ((Z.of_nat x, Z.of_nat y), p) l)
  /\ (exists l,
        compute_diff_buffer self_buffer self_buffer w h 0 rob = Ok l
        /\ In ((Z.of_nat x, Z.of_nat y), p) l
        /\ l <> []).
Proof.
  intros Hp Hq Hc Hscan.
  assert (Hany : forall o q', cell_at o x y = Some q' -> char p = char q' ->
            In (pos_of x y, p) (all_updates self_buffer o w h 0 rob)).
  { intros o q' Hq' Hc'. apply in_all_updates. exists x, y.
    rewrite Hp, Hq'. repeat split; [exact Hscan|].
    apply (needs_update_same_char p q' (0 * 0) Hc').
    apply distance_squared_nonneg. }
  split.
  - eexists. split; [apply compute_diff_buffer_eq | exact (Hany _ _ Hq Hc)].
  - eexists. split; [apply compute_diff_buffer_eq|].
    pose proof (Hany _ _ Hp eq_refl) as Hin.
    split; [exact Hin|]. intros E. rewrite E in Hin. exact Hin.
Qed.

(** C9 on a one-cell buffer diffed against itself with tolerance 0. *)
Lemma zero_tolerance_reports_every_shared_cell_witness :
  exists l,
    compute_diff_buffer [[Some A_red]] [[Some A_red]] 80 24 0 false = Ok l
    /\ In ((0, 0)%Z, A_red) l
    /\ l <> [].
Proof.
  apply (@zero_tolerance_reports_every_shared_cell
           [[Some A_red]] [[Some A_red]] 80 24 false 0 0 A_red A_red
           eq_refl eq_refl eq_refl); reflexivity.
Defined.

(** C10: for a negative tolerance t, all other arguments fixed, the
    routine returns the same result as for tolerance -t: a negative
    tolerance is accepted and acts as its absolute value. *)
Theorem negative_tolerance_acts_as_absolute_value
    (self_buffer other_buffer : Buffer) (w h : Z) (t : Q) (rob : bool) :
  t < 0 ->
  compute_diff_buffer self_buffer other_buffer w h t rob
  = compute_diff_buffer self_buffer other_buffer w h (- t) rob
  /\ exists l, compute_diff_buffer self_buffer other_buffer w h t rob = Ok l.
Proof.
  intros _. rewrite !compute_diff_buffer_eq. split; [|eauto].
  f_equal. apply all_updates_threshold. symmetry. apply square_opp.
Qed.

(** C10 at tolerance -2. *)
Lemma negative_tolerance_acts_as_absolute_value_witness :
  compute_diff_buffer [[Some (A_grey 3)]] [[Some (A_grey 1)]] 80 24 (-2) false
  = compute_diff_buffer [[Some (A_grey 3)]] [[Some (A_grey 1)]] 80 24 (- (-2)) false.
Proof.
  apply (@negative_tolerance_acts_as_absolute_value
           [[Some (A_grey 3)]] [[Some (A_grey 1)]] 80 24 (-2) false).
  reflexivity.
Defined.

(** ** Further lemmas on the decision and on sorted lists *)


Lemma needs_update_antitone (a b : option Pixel) (t2 t2' : Q) :
  t2 <= t2' -> needs_update a b t2' = true -> needs_update a b t2 = true.
Proof.
  intros Hle. destruct a as [p|], b as [q|]; simpl; try tauto.
  rewrite !orb_true_iff. intros [H|H]; [now left | right].
  apply Qle_bool_iff. apply Qle_bool_iff in H. now apply Qle_trans with t2'.
Qed.

Lemma square_le (t t' : Q) : 0 <= t -> t <= t' -> t * t <= t' * t'.
Proof.
  intros H0 Hle. apply Qle_trans with (t' * t).
  - now apply Qmult_le_compat_r.
  - rewrite (Qmult_comm t' t).
    apply Qmult_le_compat_r; [exact Hle | now apply Qle_trans with t].
Qed.

Lemma StronglySorted_filter (A : Type) (R : A -> A -> Prop) (f : A -> bool)
    (l : list A) :
  StronglySorted R l -> StronglySorted R (filter f l).
Proof.
  induction 1 as [|a l Hl IH Ha]; simpl; [constructor|].
  destruct (f a); [|exact IH]. constructor; [exact IH|].
  rewrite Forall_forall in *. intros b Hb. apply filter_In in Hb. now apply Ha.
Qed.

Lemma all_updates_NoDup (s o : Buffer) (w h : Z) (t : Q) (rob : bool) :
  NoDup (all_updates s o w h t rob).
Proof.
  apply StronglySorted_NoDup with (R := entry_lt); [|apply all_updates_sorted].
  intros e He. exact (entry_lt_asym He He).
Qed.

Lemma in_viewport_in_scan (w h : Z) (x y : nat) (c : Pixel) :
  in_viewport w h (pos_of x y, c) = in_scan w h false x y.
Proof.
  unfold in_viewport, in_scan. simpl. rewrite !andb_true_r, !Z.ltb_antisym.
  apply andb_comm.
Qed.

(** ** Further properties of [compute_diff_buffer] *)

(** X1: a cell that the first buffer holds where the second holds none is
    reported with the first buffer's cell, whatever the tolerance. *)
Theorem appearing_cell_is_reported
    (self_buffer other_buffer : Buffer) (w h : Z) (t : Q) (rob : bool)
    (x y : nat) (p : Pixel) :
  in_scan w h rob x y = true ->
  cell_at self_buffer x y = Some p ->
  cell_at other_buffer x y = None ->
  exists l,
    compute_diff_buffer self_buffer other_buffer w h t rob = Ok l
    /\ In ((Z.of_nat x, Z.of_nat y), p) l.
Proof.
  intros Hscan Hs Ho. eexists. split; [apply compute_diff_buffer_eq|].
  apply in_all_updates. exists x, y. now rewrite Hs, Ho.
Qed.

(** X1 on a two-cell row diffed against a one-cell row, tolerance 1000. *)
Lemma appearing_cell_is_reported_witness :
  exists l,
    compute_diff_buffer [[Some A_red; Some A_blue]] [[Some A_red]] 80 24 1000 false
      = Ok l
    /\ In ((1, 0)%Z, A_blue) l.
Proof.
  apply (@appearing_cell_is_reported
           [[Some A_red; Some A_blue]] [[Some A_red]] 80 24 1000 false 1 0 A_blue);
    reflexivity.
Defined.

(** X2: a cell that the second buffer holds where the first holds none is
    reported with the blank cell (space, black) positioned at (x, y),
    whatever the tolerance. *)
Theorem disappearing_cell_is_blanked
    (self_buffer other_buffer : Buffer) (w h : Z) (t : Q) (rob : bool)
    (x y : nat) (q : Pixel) :
  in_scan w h rob x y = true ->
  cell_at self_buffer x y = None ->
  cell_at other_buffer x y = Some q ->
  exists l,
    compute_diff_buffer self_buffer other_buffer w h t rob = Ok l
    /\ In ((Z.of_nat x, Z.of_nat y),
           mkPixel " "%string (mkColor 0 0 0)
             (mkPosition (Z.of_nat x) (Z.of_nat y))) l.
Proof.
  intros Hscan Hs Ho. eexists. split; [apply compute_diff_buffer_eq|].
  apply in_all_updates. exists x, y. now rewrite Hs, Ho.
Qed.

(** X2 on a row holding [None] diffed against a row holding a cell. *)
Lemma disappearing_cell_is_blanked_witness :
  exists l,
    compute_diff_buffer [[None]; []] [[]; [Some A_red]] 80 24 1000 false = Ok l
    /\ In ((0, 1)%Z, mkPixel " "%string (mkColor 0 0 0) (mkPosition 0 1)) l.
Proof.
  apply (@disappearing_cell_is_blanked
           [[None]; []] [[]; [Some A_red]] 80 24 1000 false 0 1 A_red);
    reflexivity.
Defined.

(** X3: where both buffers hold a cell and the characters differ, the
    position is reported with the first buffer's cell, however large the
    tolerance and however close the colours. *)
Theorem character_change_is_reported
    (self_buffer other_buffer : Buffer) (w h : Z) (t : Q) (rob : bool)
    (x y : nat) (p q : Pixel) :
  in_scan w h rob x y = true ->
  cell_at self_buffer x y = Some p ->
  cell_at other_buffer x y = Some q ->
  char p <> char q ->
  exists l,
    compute_diff_buffer self_buffer other_buffer w h t rob = Ok l
    /\ In ((Z.of_nat x, Z.of_nat y), p) l.
Proof.
  intros Hscan Hs Ho Hc. eexists. split; [apply compute_diff_buffer_eq|].
  apply in_all_updates. exists x, y. rewrite Hs, Ho.
  repeat split; [exact Hscan|]. simpl.
  apply String.eqb_neq in Hc. now rewrite Hc.
Qed.

(** X3 on 'A' against 'B' of the same colour, tolerance 1000. *)
Lemma character_change_is_reported_witness :
  exists l,
    compute_diff_buffer [[Some A_red]]
      [[Some (mkPixel "B"%string red_c (mkPosition 0 0))]] 80 24 1000 false = Ok l
    /\ In ((0, 0)%Z, A_red) l.
Proof.
  apply (@character_change_is_reported
           [[Some A_red]] [[Some (mkPixel "B"%string red_c (mkPosition 0 0))]]
           80 24 1000 false 0 0 A_red
           (mkPixel "B"%string red_c (mkPosition 0 0)));
    try reflexivity.
  intros H. discriminate H.
Defined.

(** X4: every entry sits at a position inside the union extent of the two
    buffers where at least one of them holds a cell: a position where both
    hold none (a stored [None] or nothing at all) is never reported, with
    out-of-bounds rendering on or off. *)
Theorem entries_only_where_a_cell_exists
    (self_buffer other_buffer : Buffer) (w h : Z) (t : Q) (rob : bool) :
  exists l,
    compute_diff_buffer self_buffer other_buffer w h t rob = Ok l
    /\ forall e, In e l ->
         exists x y,
           fst e = (Z.of_nat x, Z.of_nat y)
           /\ (y < Nat.max (length self_buffer) (length other_buffer))%nat
           /\ (x < Nat.max (length (nth y self_buffer []))
                     (length (nth y other_buffer [])))%nat
           /\ (cell_at self_buffer x y <> None \/ cell_at other_buffer x y <> None).
Proof.
  eexists. split; [apply compute_diff_buffer_eq|].
  intros e He. apply in_all_updates in He as (x & y & -> & _ & Hn).
  exists x, y. split; [reflexivity|].
  destruct (needs_update_extent _ _ _ _ _ Hn) as (Hy & Hx).
  split; [exact Hy|]. split; [exact Hx|].
  destruct (cell_at self_buffer x y); [left; discriminate|].
  destruct (cell_at other_buffer x y); [right; discriminate | discriminate].
Qed.

(** X5: with out-of-bounds rendering off, the update list has at most
    viewport width times viewport height entries (none when either is zero
    or negative), whatever the sizes of the buffers. *)
Theorem update_count_bounded_by_viewport
    (self_buffer other_buffer : Buffer) (w h : Z) (t : Q) :
  exists l,
    compute_diff_buffer self_buffer other_buffer w h t false = Ok l
    /\ (length l <= Z.to_nat w * Z.to_nat h)%nat.
Proof.
  set (l := all_updates self_buffer other_buffer w h t false).
  exists l. split; [apply compute_diff_buffer_eq|].
  assert (H : (length (map fst l)
                 <= length (list_prod (map Z.of_nat (seq 0 (Z.to_nat w)))
                              (map Z.of_nat (seq 0 (Z.to_nat h)))))%nat);
    [|now rewrite length_prod, !length_map, !length_seq in H].
  apply NoDup_incl_length.
  - apply StronglySorted_NoDup with (R := row_major_lt);
      [exact row_major_lt_irrefl|].
    apply StronglySorted_map. apply all_updates_sorted.
  - intros pos Hpos. apply in_map_iff in Hpos as (e & <- & He).
    apply in_all_updates in He as (x & y & -> & Hscan & _).
    apply in_scan_in_bounds in Hscan. simpl.
    apply in_prod; apply in_map, in_seq; lia.
Qed.

(** X6: raising the tolerance never adds an update: for 0 <= t <= t',
    every entry of the diff at tolerance t' is an entry of the diff at
    tolerance t, so the list at t' is no longer than the list at t. *)
Theorem larger_tolerance_reports_less
    (self_buffer other_buffer : Buffer) (w h : Z) (t t' : Q) (rob : bool) :
  0 <= t -> t <= t' ->
  exists l l',
    compute_diff_buffer self_buffer other_buffer w h t rob = Ok l
    /\ compute_diff_buffer self_buffer other_buffer w h t' rob = Ok l'
    /\ (forall e, In e l' -> In e l)
    /\ (length l' <= length l)%nat.
Proof.
  intros H0 Hle. do 2 eexists.
  split; [apply compute_diff_buffer_eq|]. split; [apply compute_diff_buffer_eq|].
  assert (Hincl : forall e,
            In e (all_updates self_buffer other_buffer w h t' rob) ->
            In e (all_updates self_buffer other_buffer w h t rob)).
  { intros e He. apply in_all_updates in He as (x & y & -> & Hscan & Hn).
    apply in_all_updates. exists x, y. repeat split; [exact Hscan|].
    exact (needs_update_antitone _ _ (square_le H0 Hle) Hn). }
  split; [exact Hincl|].
  apply NoDup_incl_length; [apply all_updates_NoDup | exact Hincl].
Qed.

(** X6 at tolerances 1 and 3 on red channels 3 and 1. *)
Lemma larger_tolerance_reports_less_witness :
  exists l l',
    compute_diff_buffer [[Some (A_grey 3)]] [[Some (A_grey 1)]] 80 24 1 false = Ok l
    /\ compute_diff_buffer [[Some (A_grey 3)]] [[Some (A_grey 1)]] 80 24 3 false = Ok l'
    /\ (length l' <= length l)%nat.
Proof.
  destruct (@larger_tolerance_reports_less
              [[Some (A_grey 3)]] [[Some (A_grey 1)]] 80 24 1 3 false)
    as (l & l' & Hl & Hl' & _ & Hlen).
  - discriminate.
  - discriminate.
  - exists l, l'. auto.
Defined.

(** X7: the diff with out-of-bounds rendering off is the diff with it on,
    restricted to the entries whose position lies inside the viewport, in
    the same order. *)
Theorem clipped_diff_is_filtered_full_diff
    (self_buffer other_buffer : Buffer) (w h w' h' : Z) (t : Q) :
  exists l_full l,
    compute_diff_buffer self_buffer other_buffer w' h' t true = Ok l_full
    /\ compute_diff_buffer self_buffer other_buffer w h t false = Ok l
    /\ l = filter (in_viewport w h) l_full.
Proof.
  do 2 eexists.
  split; [apply compute_diff_buffer_eq|]. split; [apply compute_diff_buffer_eq|].
  apply StronglySorted_unique with (R := entry_lt);
    [exact entry_lt_asym | apply all_updates_sorted
    | apply StronglySorted_filter, all_updates_sorted |].
  intros e. rewrite filter_In, !in_all_updates. split.
  - intros (x & y & -> & Hscan & Hn). split.
    + exists x, y. now rewrite in_scan_outside.
    + now rewrite in_viewport_in_scan.
  - intros ((x & y & -> & _ & Hn) & Hv). exists x, y.
    now rewrite in_viewport_in_scan in Hv.
Qed.

(** X8: with out-of-bounds rendering off, the diff depends only on the
    cells inside the viewport: two pairs of buffers that hold the same
    cells at every position (x, y) with x < width and y < height give the
    same result, whatever they hold elsewhere. *)
Theorem content_outside_viewport_is_ignored
    (s o s' o' : Buffer) (w h : Z) (t : Q) :
  (forall x y, (Z.of_nat x < w)%Z -> (Z.of_nat y < h)%Z ->
               cell_at s x y = cell_at s' x y) ->
  (forall x y, (Z.of_nat x < w)%Z -> (Z.of_nat y < h)%Z ->
               cell_at o x y = cell_at o' x y) ->
  compute_diff_buffer s o w h t false = compute_diff_buffer s' o' w h t false.
Proof.
  intros Hs Ho. rewrite !compute_diff_buffer_eq. f_equal.
  apply StronglySorted_unique with (R := entry_lt);
    [exact entry_lt_asym | apply all_updates_sorted | apply all_updates_sorted |].
  intros e. rewrite !in_all_updates.
  split; intros (x & y & He & Hscan & Hn); exists x, y;
    destruct (proj1 (in_scan_in_bounds w h x y) Hscan) as (Hx & Hy);
    [rewrite <- (Hs x y Hx Hy), <- (Ho x y Hx Hy)
    | rewrite (Hs x y Hx Hy), (Ho x y Hx Hy)]; auto.
Qed.

(** X8 on a viewport of one cell: the buffers differ only at column 1. *)
Lemma content_outside_viewport_is_ignored_witness :
  compute_diff_buffer [[Some A_red; Some A_red]] [[Some A_blue]] 1 1 1 false
  = compute_diff_buffer [[Some A_red]] [[Some A_blue; Some A_blue]] 1 1 1 false.
Proof.
  apply content_outside_viewport_is_ignored.
  - intros [|x] [|y] Hx Hy; try reflexivity; lia.
  - intros [|x] [|y] Hx Hy; try reflexivity; lia.
Defined.

(** X9: diffed against the empty buffer, a frame is drawn in full: the
    update list holds exactly the cells the first buffer has at the
    positions the scan reaches, each at its position, whatever the
    tolerance. *)
Theorem diff_against_empty_draws_every_cell
    (F : Buffer) (w h : Z) (t : Q) (rob : bool) :
  exists l,
    compute_diff_buffer F [] w h t rob = Ok l
    /\ forall e, In e l <->
         exists x y p,
           cell_at F x y = Some p
           /\ in_scan w h rob x y = true
           /\ e = ((Z.of_nat x, Z.of_nat y), p).
Proof.
  eexists. split; [apply compute_diff_buffer_eq|].
  assert (Hnone : forall x y, cell_at [] x y = None) by (intros x [|y]; reflexivity).
  intros e. rewrite in_all_updates. split.
  - intros (x & y & -> & Hscan & Hn). rewrite Hnone in Hn.
    destruct (cell_at F x y) as [p|] eqn:E; [|discriminate].
    exists x, y, p. auto.
  - intros (x & y & p & Hp & Hscan & ->). exists x, y.
    now rewrite Hp, Hnone.
Qed.

(** X10: the empty buffer diffed against a frame erases that frame: the
    update list holds exactly one blank cell (space, black, positioned at
    (x, y)) for each position the scan reaches where the second buffer has
    a cell, whatever the tolerance. *)
Theorem diff_of_empty_blanks_every_cell
    (F : Buffer) (w h : Z) (t : Q) (rob : bool) :
  exists l,
    compute_diff_buffer [] F w h t rob = Ok l
    /\ forall e, In e l <->
         exists x y q,
           cell_at F x y = Some q
           /\ in_scan w h rob x y = true
           /\ e = ((Z.of_nat x, Z.of_nat y),
                   mkPixel " "%string (mkColor 0 0 0)
                     (mkPosition (Z.of_nat x) (Z.of_nat y))).
Proof.
  eexists. split; [apply compute_diff_buffer_eq|].
  assert (Hnone : forall x y, cell_at [] x y = None) by (intros x [|y]; reflexivity).
  intros e. rewrite in_all_updates. split.
  - intros (x & y & -> & Hscan & Hn). rewrite Hnone in *.
    destruct (cell_at F x y) as [q|] eqn:E; [|discriminate].
    exists x, y, q. auto.
  - intros (x & y & q & Hq & Hscan & ->). exists x, y.
    now rewrite Hq, Hnone.
Qed.


(** X12: enlarging the viewport never removes an update: for w <= w' and
    h <= h', every entry of the diff for viewport w x h is an entry of the
    diff for viewport w' x h', which is at least as long. *)
Theorem larger_viewport_reports_more
    (self_buffer other_buffer : Buffer) (w h w' h' : Z) (t : Q) (rob : bool) :
  (w <= w')%Z -> (h <= h')%Z ->
  exists l l',
    compute_diff_buffer self_buffer other_buffer w h t rob = Ok l
    /\ compute_diff_buffer self_buffer other_buffer w' h' t rob = Ok l'
    /\ (forall e, In e l -> In e l')
    /\ (length l <= length l')%nat.
Proof.
  intros Hw Hh. do 2 eexists.
  split; [apply compute_diff_buffer_eq|]. split; [apply compute_diff_buffer_eq|].
  assert (Hincl : forall e,
            In e (all_updates self_buffer other_buffer w h t rob) ->
            In e (all_updates self_buffer other_buffer w' h' t rob)).
  { intros e He. apply in_all_updates in He as (x & y & -> & Hscan & Hn).
    apply in_all_updates. exists x, y. repeat split; [|exact Hn].
    destruct rob; [apply in_scan_outside|].
    apply in_scan_in_bounds in Hscan. apply in_scan_in_bounds. lia. }
  split; [exact Hincl|].
  apply NoDup_incl_length; [apply all_updates_NoDup | exact Hincl].
Qed.

(** X12 from viewport 1x1 to viewport 2x1 on a two-cell row. *)
Lemma larger_viewport_reports_more_witness :
  exists l l',
    compute_diff_buffer [[Some A_red; Some A_red]] [] 1 1 1 false = Ok l
    /\ compute_diff_buffer [[Some A_red; Some A_red]] [] 2 1 1 false = Ok l'
    /\ (length l <= length l')%nat.
Proof.
  destruct (@larger_viewport_reports_more
              [[Some A_red; Some A_red]] [] 1 1 2 1 1 false)
    as (l & l' & Hl & Hl' & _ & Hlen); [lia | lia |].
  exists l, l'. auto.
Defined.

(** X13: where both buffers hold a cell and the scan reaches, the two
    directions of the diff report the position together, each with the
    cell of its own first argument: diff(A, B) carries A's cell and no
    other, diff(B, A) carries B's cell and no other. *)
Theorem each_direction_carries_its_own_cell
    (A B : Buffer) (w h : Z) (t : Q) (rob : bool) (x y : nat) (p q : Pixel) :
  cell_at A x y = Some p ->
  cell_at B x y = Some q ->
  exists lab lba,
    compute_diff_buffer A B w h t rob = Ok lab
    /\ compute_diff_buffer B A w h t rob = Ok lba
    /\ (In ((Z.of_nat x, Z.of_nat y), p) lab
          <-> In ((Z.of_nat x, Z.of_nat y), q) lba)
    /\ (forall c, In ((Z.of_nat x, Z.of_nat y), c) lab -> c = p)
    /\ (forall c, In ((Z.of_nat x, Z.of_nat y), c) lba -> c = q).
Proof.
  intros Hp Hq. do 2 eexists.
  split; [apply compute_diff_buffer_eq|]. split; [apply compute_diff_buffer_eq|].
  assert (Hown : forall (S O : Buffer) (r : Pixel) c,
            cell_at S x y = Some r ->
            In (pos_of x y, c) (all_updates S O w h t rob) -> c = r).
  { intros S O r c Hr Hin.
    apply in_all_updates in Hin as (x' & y' & E & _ & _).
    pose proof (f_equal fst E) as Epos. pose proof (f_equal snd E) as Ec.
    simpl in Epos, Ec. apply pos_of_inj in Epos as (<- & <-).
    now rewrite Ec, Hr. }
  split; [|split; [intros c; apply (Hown A B p c Hp)
                  | intros c; apply (Hown B A q c Hq)]].
  fold (pos_of x y). rewrite !in_all_updates.
  split; intros (x' & y' & E & Hscan & Hn);
    pose proof (f_equal fst E) as Epos; simpl in Epos;
    apply pos_of_inj in Epos as (<- & <-);
    exists x, y; rewrite Hp, Hq in *; repeat split; auto;
    now rewrite needs_update_sym.
Qed.

(** X13 on red against blue at the default tolerance. *)
Lemma each_direction_carries_its_own_cell_witness :
  exists lab lba,
    compute_diff_buffer [[Some A_red]] [[Some A_blue]] 80 24
      default_color_threshold false = Ok lab
    /\ compute_diff_buffer [[Some A_blue]] [[Some A_red]] 80 24
         default_color_threshold false = Ok lba
    /\ (In ((0, 0)%Z, A_red) lab <-> In ((0, 0)%Z, A_blue) lba).
Proof.
  destruct (@each_direction_carries_its_own_cell
              [[Some A_red]] [[Some A_blue]] 80 24 default_color_threshold false
              0 0 A_red A_blue eq_refl eq_refl)
    as (lab & lba & H1 & H2 & H3 & _).
  exists lab, lba. auto.
Defined.
